(** * TinyLink backend: the redirect resolver and the application
      around it

    A shallow embedding of [src/controllers/redirectController.js]
    ([redirect]) and of [src/server.js]: its health checks, the order
    of its handlers, its error-handling and fallback middleware.

    The persistent store is explicit state, every handler returns the
    effects it performs in program order, and concurrent requests are a
    step function over a pool of in-flight requests driven by a
    schedule. *)

From Stdlib Require Import ZArith String List Bool Lia.
From stdpp Require Import base list strings.
Import ListNotations.

Local Open Scope string_scope.
Local Open Scope list_scope.

(** ** Data model (README, "Database Schema") *)

(** A [DateTime], as the milliseconds [Date.prototype.valueOf] gives. *)
Definition Timestamp := Z.

Module Link.
Record t := mk {
  id : string;
  shortCode : string;
  originalUrl : string;
  title : option string;
  description : option string;
  clicks : Z;
  isActive : bool;
  expiresAt : option Timestamp;
  createdAt : Timestamp;
  updatedAt : Timestamp
}.
End Link.

Module Analytics.
Record t := mk {
  id : nat;
  linkId : string;
  ipAddress : option string;
  userAgent : option string;
  referer : option string;
  deviceType : option string;
  browser : option string;
  os : option string;
  clickedAt : Timestamp
}.
End Analytics.

(** The two relations of the store. *)
Record Store := mkStore {
  links : list Link.t;
  analytics : list Analytics.t
}.

(** What a handler reads of [req]: the route parameter and the request
    metadata a click is recorded with. *)
Module Req.
Record t := mk {
  shortCode : string;
  ip : option string;
  userAgent : option string;
  referer : option string;
  deviceType : option string;
  browser : option string;
  os : option string
}.
End Req.

(** A thrown JavaScript error, as far as the error middleware reads it.
    [status] is [None] when the property is undefined. *)
Record JsError := mkError {
  err_status : option nat;
  err_message : string;
  err_stack : string
}.

(** The settlement of an awaited call. *)
Inductive Result (A : Type) :=
| Returned (a : A)
| Thrown (e : JsError).
Arguments Returned {A} a.
Arguments Thrown {A} e.

(** What the surroundings decide for one step of a handler: the clock
    read by [new Date()], and whether a store call fails. *)
Record Env := mkEnv {
  now : Timestamp;
  find_fault : option JsError;
  write_fault : option JsError
}.

(** ** Responses and effects *)

Inductive JVal :=
| JBool (b : bool)
| JStr (s : string).

Inductive Response :=
| Send (status : nat) (text : string)                 (* res.status(s).send(text) *)
| SendJson (status : nat) (obj : list (string * JVal)) (* res.status(s).json(obj)  *)
| Redirect (status : nat) (location : string).         (* res.redirect(s, url)     *)

Definition status_of (r : Response) : nat :=
  match r with
  | Send s _ | SendJson s _ | Redirect s _ => s
  end.

(** The observable actions of a handler, in program order. *)
Inductive Effect :=
| Query (shortCode : string)                 (* prisma.link.findUnique({where:{shortCode}}) *)
| Track (linkId : string) (req : Req.t)      (* trackClick(link.id, req), not awaited *)
| Respond (r : Response)
| Next (e : JsError)                         (* next(error) *)
| LogError (e : JsError)                     (* .catch(console.error) *)
| LogStack (stack : string).                 (* console.error(err.stack) *)

(** ** The redirect controller *)

(** [prisma.link.findUnique({ where: { shortCode } })] on the rows. *)
Definition find_row (rows : list Link.t) (code : string) : option Link.t :=
  find (fun l => String.eqb (Link.shortCode l) code) rows.

Definition findUnique (env : Env) (db : Store) (code : string)
  : Result (option Link.t) :=
  match find_fault env with
  | Some e => Thrown e
  | None => Returned (find_row (links db) code)
  end.

(** [link.expiresAt && new Date(link.expiresAt) < new Date()] *)
Definition expired (t : Timestamp) (link : Link.t) : bool :=
  match Link.expiresAt link with
  | Some e => (e <? t)%Z
  | None => false
  end.

Definition not_found : list Effect := [Respond (Send 404 "Not Found")].

(** The body of [redirect] from the point where the awaited lookup has
    settled; [t] is what [new Date()] reads then.  [trackClick] hands
    back its promise without throwing, as an async function does; the
    promise is left pending and [.catch(console.error)] is attached. *)
Definition redirect_resume (t : Timestamp) (found : Result (option Link.t))
    (req : Req.t) : list Effect :=
  match found with
  | Thrown e => [Next e]
  | Returned None => not_found
  | Returned (Some link) =>
      if negb (Link.isActive link) then not_found
      else if expired t link then not_found
      else [Track (Link.id link) req; Respond (Redirect 302 (Link.originalUrl link))]
  end.

(** [redirect(req, res, next)] *)
Definition redirect (env : Env) (db : Store) (req : Req.t) : list Effect :=
  Query (Req.shortCode req)
    :: redirect_resume (now env) (findUnique env db (Req.shortCode req)) req.

(** The responses a handler sent, the errors it forwarded and the
    [trackClick] calls it made. *)
Definition responses (tr : list Effect) : list Response :=
  omap (fun e => match e with Respond r => Some r | _ => None end) tr.

Definition forwarded (tr : list Effect) : list JsError :=
  omap (fun e => match e with Next x => Some x | _ => None end) tr.

Definition track_calls (tr : list Effect) : list (string * Req.t) :=
  omap (fun e => match e with Track i r => Some (i, r) | _ => None end) tr.

Definition queries (tr : list Effect) : list string :=
  omap (fun e => match e with Query c => Some c | _ => None end) tr.

(** The three reasons for which a code does not resolve. *)
Inductive Unresolvable (t : Timestamp) (db : Store) (code : string) : Prop :=
| NoSuchLink :
    find_row (links db) code = None -> Unresolvable t db code
| Inactive link :
    find_row (links db) code = Some link ->
    Link.isActive link = false -> Unresolvable t db code
| Expired link e :
    find_row (links db) code = Some link ->
    Link.expiresAt link = Some e -> (e < t)%Z -> Unresolvable t db code.

(** ** Click tracking *)

Definition add_click (link : Link.t) : Link.t :=
  Link.mk (Link.id link) (Link.shortCode link) (Link.originalUrl link)
    (Link.title link) (Link.description link) (Link.clicks link + 1)%Z
    (Link.isActive link) (Link.expiresAt link) (Link.createdAt link)
    (Link.updatedAt link).

(** Modelled from the spec: [trackClick] (src/middleware/analytics.js) is
    not part of the sources.  Its click-count update is "a single atomic
    operation against the store", an increment by 1 of the link the
    controller passes by id. *)
Definition increment_clicks (linkId : string) (db : Store) : Store :=
  mkStore
    (map (fun l => if String.eqb (Link.id l) linkId then add_click l else l)
         (links db))
    (analytics db).

(** Modelled from the spec: the ClickEvent of a redirect, from the
    request metadata (IP, user-agent, referer, derived device, browser
    and OS), [clickedAt] "set at write time". *)
Definition click_event (t : Timestamp) (db : Store) (linkId : string)
    (req : Req.t) : Analytics.t :=
  Analytics.mk (length (analytics db)) linkId (Req.ip req) (Req.userAgent req)
    (Req.referer req) (Req.deviceType req) (Req.browser req) (Req.os req) t.

(** Modelled from the spec: the ClickEvent write of [trackClick], one
    insert that is "best-effort": when the store refuses it nothing is
    written and the promise rejects. *)
Definition record_click (env : Env) (linkId : string) (req : Req.t)
    (db : Store) : Store * Result unit :=
  match write_fault env with
  | Some e => (db, Thrown e)
  | None =>
      (mkStore (links db) (analytics db ++ [click_event (now env) db linkId req]),
       Returned tt)
  end.

(** Modelled from the spec: [trackClick(linkId, req)] run to its
    settlement, the increment and then the ClickEvent write. *)
Definition trackClick (env : Env) (linkId : string) (req : Req.t)
    (db : Store) : Store * Result unit :=
  record_click env linkId req (increment_clicks linkId db).

(** [.catch(console.error)] on the promise of [trackClick]. *)
Definition settle (r : Result unit) : list Effect :=
  match r with
  | Thrown e => [LogError e]
  | Returned _ => []
  end.

(** The [trackClick] calls a handler left pending, settled one after the
    other once the handler has returned. *)
Fixpoint run_tracked (env : Env) (calls : list (string * Req.t)) (db : Store)
  : Store * list Effect :=
  match calls with
  | [] => (db, [])
  | (i, r) :: rest =>
      let (db1, res) := trackClick env i r db in
      let (db2, tr) := run_tracked env rest db1 in
      (db2, settle res ++ tr)
  end.

(** One request to [redirect] served alone, to the end of everything it
    started. *)
Definition serve (env : Env) (db : Store) (req : Req.t) : Store * list Effect :=
  let tr := redirect env db req in
  let (db', late) := run_tracked env (track_calls tr) db in
  (db', tr ++ late).

(** ** server.js: error handling middleware and 404 handler *)

(** [err.status || 500] *)
Definition status_or_500 (err : JsError) : nat :=
  match err_status err with
  | None | Some 0 => 500
  | Some s => s
  end.

(** [err.message || 'Internal Server Error'] *)
Definition message_or_default (err : JsError) : string :=
  match err_message err with
  | EmptyString => "Internal Server Error"
  | m => m
  end.

(** [process.env.NODE_ENV === 'development'], [None] when unset. *)
Definition is_development (node_env : option string) : bool :=
  match node_env with
  | Some v => String.eqb v "development"
  | None => false
  end.

(** [app.use((err, req, res, next) => ...)], for a status that
    [res.status] and Node accept (100 to 999). *)
Definition errorHandler (node_env : option string) (err : JsError)
  : list Effect :=
  [LogStack (err_stack err);
   Respond (SendJson (status_or_500 err)
     ([("success", JBool false); ("message", JStr (message_or_default err))]
        ++ (if is_development node_env
            then [("stack", JStr (err_stack err))] else [])))].

(** [app.use((req, res) => ...)], the fallback for unmatched routes. *)
Definition notFoundHandler : list Effect :=
  [Respond (SendJson 404
     [("success", JBool false); ("message", JStr "Route not found")])].

(** [GET /:shortCode] through the application: an error the controller
    forwards with [next] reaches the error middleware. *)
Definition get_shortCode (node_env : option string) (env : Env) (db : Store)
    (req : Req.t) : list Effect :=
  let tr := redirect env db req in
  tr ++ flat_map (errorHandler node_env) (forwarded tr).

Fixpoint field (k : string) (obj : list (string * JVal)) : option JVal :=
  match obj with
  | [] => None
  | (k', v) :: rest => if String.eqb k' k then Some v else field k rest
  end.

(** A body of the shape [{success:false, message}]. *)
Definition error_shape (r : Response) : bool :=
  match r with
  | SendJson _ obj =>
      match field "success" obj, field "message" obj with
      | Some (JBool false), Some (JStr _) => true
      | _, _ => false
      end
  | _ => false
  end.

Definition has_stack (r : Response) : bool :=
  match r with
  | SendJson _ obj => match field "stack" obj with Some _ => true | None => false end
  | _ => false
  end.

(** ** Request methods *)

(** The methods the framework routes by. *)
Inductive Method := GET | HEAD | POST | PUT | DELETE | PATCH | OPTIONS.

(** ** Requests in flight *)

(** Where one request to [redirect] stands.  Between two of these
    points the request runs without yielding; at each of them any other
    request may run. *)
Inductive Thread :=
| Arrived (req : Req.t)                                   (* before the lookup *)
| Resumed (found : Result (option Link.t)) (req : Req.t)  (* lookup settled *)
| Counting (linkId : string) (req : Req.t)    (* responded; increment pending *)
| Recording (linkId : string) (req : Req.t)   (* ClickEvent write pending *)
| Finished.

Record System := mkSystem {
  store : Store;
  pool : list Thread;
  trace : list (nat * Effect)
}.

Definition after_resume (tr : list Effect) : Thread :=
  match track_calls tr with
  | (i, r) :: _ => Counting i r
  | [] => Finished
  end.

(** Request [i] runs to its next yield point under [env]. *)
Definition step (i : nat) (env : Env) (s : System) : System :=
  match pool s !! i with
  | None => s
  | Some (Arrived req) =>
      mkSystem (store s)
        (<[i := Resumed (findUnique env (store s) (Req.shortCode req)) req]> (pool s))
        (trace s ++ [(i, Query (Req.shortCode req))])
  | Some (Resumed found req) =>
      let tr := redirect_resume (now env) found req in
      mkSystem (store s) (<[i := after_resume tr]> (pool s))
        (trace s ++ map (pair i) tr)
  | Some (Counting l req) =>
      mkSystem (increment_clicks l (store s)) (<[i := Recording l req]> (pool s))
        (trace s)
  | Some (Recording l req) =>
      let (db, res) := record_click env l req (store s) in
      mkSystem db (<[i := Finished]> (pool s))
        (trace s ++ map (pair i) (settle res))
  | Some Finished => s
  end.

Definition run (sched : list (nat * Env)) (s : System) : System :=
  fold_left (fun s ie => step (fst ie) (snd ie) s) sched s.

Definition arrive (db : Store) (reqs : list Req.t) : System :=
  mkSystem db (map Arrived reqs) [].

Definition finished (t : Thread) : bool :=
  match t with
  | Finished => true
  | _ => false
  end.

(** The effects of request [i] in a trace. *)
Definition effects_of (i : nat) (tr : list (nat * Effect)) : list Effect :=
  omap (fun ie => if Nat.eqb (fst ie) i then Some (snd ie) else None) tr.

(** Each request in turn, from arrival to the end of its tracking. *)
Definition one_by_one (env : Env) (n : nat) : list (nat * Env) :=
  flat_map (fun i => repeat (i, env) 4) (seq 0 n).

(** ** Sample data (after the README's examples) *)

Definition docs_link : Link.t :=
  Link.mk "clx1" "docs01" "https://www.example.com" (Some "Example Website")
    None 5 true (Some 1735689599000%Z) 1704067200000%Z 1704067200000%Z.

Definition old_link : Link.t :=
  Link.mk "clx2" "old001" "https://old.example.com" None None 0 true
    (Some 1000%Z) 0%Z 0%Z.

Definition gone_link : Link.t :=
  Link.mk "clx3" "gone01" "https://gone.example.com" None None 2 false
    None 0%Z 0%Z.

(** A link expiring at the very instant of the request. *)
Definition edge_link : Link.t :=
  Link.mk "clx4" "edge01" "https://edge.example.com" None None 0 true
    (Some 1704110400000%Z) 0%Z 0%Z.

Definition sample_db : Store := mkStore [docs_link; old_link; gone_link] [].

Definition visit (code : string) : Req.t :=
  Req.mk code (Some "192.168.1.1") (Some "Mozilla/5.0") None
    (Some "desktop") (Some "chrome") (Some "windows").

Definition store_down : JsError :=
  mkError None "Can't reach database server" "Error: Can't reach database server".

(** The clock at 2024-01-01T12:00:00Z, every store call answering. *)
Definition calm : Env := mkEnv 1704110400000%Z None None.

(** The same, the ClickEvent write refused. *)
Definition lossy : Env := mkEnv 1704110400000%Z None (Some store_down).

(** ** Bookkeeping over the pool of requests *)

(** Requests whose click has been counted, and requests whose tracking
    has come to its end. *)
Definition counted (t : Thread) : nat :=
  match t with
  | Recording _ _ | Finished => 1
  | _ => 0
  end.

(** The steps a request still has to take. *)
Definition remaining (t : Thread) : nat :=
  match t with
  | Arrived _ => 4
  | Resumed _ _ => 3
  | Counting _ _ => 2
  | Recording _ _ => 1
  | Finished => 0
  end.

Definition ended (t : Thread) : nat :=
  match t with
  | Finished => 1
  | _ => 0
  end.

(** What every request for [code] is, at any of its yield points, while
    the link [l0] of that code stays active and unexpired. *)
Definition on_course (code : string) (l0 : Link.t) (t : Thread) : Prop :=
  match t with
  | Arrived r => Req.shortCode r = code
  | Resumed found _ =>
      exists l, found = Returned (Some l) /\ Link.id l = Link.id l0 /\
                Link.isActive l = true /\ Link.expiresAt l = Link.expiresAt l0
  | Counting i _ | Recording i _ => i = Link.id l0
  | Finished => True
  end.

(** The invariant of [n] requests for [code] in flight: each is on
    course, and the link's [clicks] is its initial value plus the number
    of requests counted so far. *)
Definition in_flight (code : string) (l0 : Link.t) (n : nat) (s : System)
  : Prop :=
  length (pool s) = n /\
  Forall (on_course code l0) (pool s) /\
  exists l,
    find_row (links (store s)) code = Some l /\
    Link.id l = Link.id l0 /\
    Link.isActive l = true /\
    Link.expiresAt l = Link.expiresAt l0 /\
    Link.clicks l = (Link.clicks l0 + Z.of_nat (sum_list_with counted (pool s)))%Z.

(** A step under which the store answers the lookup and the link [l0]
    has not expired. *)
Definition fair_weather (l0 : Link.t) (ie : nat * Env) : Prop :=
  find_fault (snd ie) = None /\ expired (now (snd ie)) l0 = false.

(** ** server.js: health checks, start-up log and the order of the handlers *)

(** [res.json({ ok: true, version: '1.0' })], the handler of both
    [/health] and [/healthz]. *)
Definition healthHandler : list Effect :=
  [Respond (SendJson 200 [("ok", JBool true); ("version", JStr "1.0")])].

(** [process.env.NODE_ENV || 'development'], what the start-up log
    prints as the environment. *)
Definition environment_label (node_env : option string) : string :=
  match node_env with
  | None | Some EmptyString => "development"
  | Some v => v
  end.

(** An incoming request as [server.js] sees it: the method, [req.path]
    and the metadata; the route parameter of [meta] is filled in by the
    route that matches. *)
Record HttpRequest := mkHttp {
  verb : Method;
  pathname : string;
  meta : Req.t
}.

Definition with_shortCode (code : string) (m : Req.t) : Req.t :=
  Req.mk code (Req.ip m) (Req.userAgent m) (Req.referer m)
    (Req.deviceType m) (Req.browser m) (Req.os m).

(** What one registered handler does with a request. *)
Inductive Layer :=
| Pass                            (* no match, or [next()] *)
| Answer (effects : list Effect)  (* the handler took the request *)
| Fail (e : JsError).             (* [next(err)] *)

(** The match of a path with a parameter. *)
Inductive Match :=
| NoMatch
| Param (value : string)
| BadParam (e : JsError).         (* the parameter cannot be decoded *)

(** What [server.js] takes from elsewhere: the path matching of the
    framework, the parsers registered first, and the routers whose
    files are not part of the sources. *)
Record Wiring := mkWiring {
  matches : string -> string -> bool;      (* a literal route path against req.path *)
  shortCode_of : string -> Match;          (* '/:shortCode' against req.path *)
  under : string -> string -> bool;        (* the prefix of app.use against req.path *)
  parsers : HttpRequest -> Layer;          (* cors(), express.json(), express.urlencoded() *)
  authRoutes : HttpRequest -> Layer;       (* require('./routes/auth') *)
  linkRoutes : HttpRequest -> Layer;       (* require('./routes/links') *)
  analyticsHandlers : HttpRequest -> Layer (* the router of routes/analytics.js, run *)
}.

(** The requests a route registered with [app.get] takes: GET, and
    HEAD, which Express hands to the GET handler of a route that has
    none for HEAD. *)
Definition is_get (r : HttpRequest) : bool :=
  match verb r with
  | GET | HEAD => true
  | _ => false
  end.

(** [app.get(p, (req, res) => res.json(...))] *)
Definition health_layer (w : Wiring) (p : string) (r : HttpRequest) : Layer :=
  if is_get r && matches w p (pathname r) then Answer healthHandler else Pass.

(** [app.use(prefix, router)] *)
Definition mounted (w : Wiring) (prefix : string)
    (router : HttpRequest -> Layer) (r : HttpRequest) : Layer :=
  if under w prefix (pathname r) then router r else Pass.

(** [app.get('/:shortCode', redirectHandler)], the handler being the
    controller [redirect]. *)
Definition redirect_layer (w : Wiring) (env : Env) (db : Store)
    (r : HttpRequest) : Layer :=
  if is_get r then
    match shortCode_of w (pathname r) with
    | Param code => Answer (redirect env db (with_shortCode code (meta r)))
    | BadParam e => Fail e
    | NoMatch => Pass
    end
  else Pass.

(** The handlers in the order of their registration.  The first that
    takes the request ends the search; an error goes to the
    error-handling middleware, past everything registered before it; a
    request nothing takes reaches the 404 handler. *)
Fixpoint dispatch (node_env : option string) (layers : list Layer)
  : list Effect :=
  match layers with
  | [] => notFoundHandler
  | Pass :: rest => dispatch node_env rest
  | Answer tr :: _ => tr ++ flat_map (errorHandler node_env) (forwarded tr)
  | Fail e :: _ => errorHandler node_env e
  end.

Definition layers (w : Wiring) (env : Env) (db : Store) (r : HttpRequest)
  : list Layer :=
  [ parsers w r;
    health_layer w "/health" r;
    health_layer w "/healthz" r;
    mounted w "/api/auth" (authRoutes w) r;
    mounted w "/api/links" (linkRoutes w) r;
    mounted w "/api/analytics" (analyticsHandlers w) r;
    redirect_layer w env db r ].

(** The application of [server.js] on one request. *)
Definition app (w : Wiring) (node_env : option string) (env : Env)
    (db : Store) (r : HttpRequest) : list Effect :=
  dispatch node_env (layers w env db r).

(** A handler that, when it takes a request, either sends one response
    or forwards one error. *)
Definition answers_once (h : HttpRequest -> Layer) : Prop :=
  forall r tr, h r = Answer tr ->
    length (responses tr) + length (forwarded tr) = 1.

(** ** Sample wiring for the examples *)

(** Literal paths compared as they are, one path segment as the short
    code, prefixes by [String.prefix], parsers and routers letting
    everything through. *)
Definition one_segment (p : string) : Match :=
  if String.prefix "/" p then
    let rest := String.substring 1 (String.length p - 1) p in
    match rest, String.index 0 "/" rest with
    | EmptyString, _ => NoMatch
    | _, Some _ => NoMatch
    | _, None => Param rest
    end
  else NoMatch.

Definition plain : Wiring :=
  mkWiring String.eqb one_segment String.prefix
    (fun _ => Pass) (fun _ => Pass) (fun _ => Pass) (fun _ => Pass).

Definition bad_json : JsError :=
  mkError (Some 400) "Unexpected token } in JSON at position 17"
    "SyntaxError: Unexpected token } in JSON at position 17".

(** The same with parsers that refuse the body. *)
Definition picky : Wiring :=
  mkWiring String.eqb one_segment String.prefix
    (fun _ => Fail bad_json) (fun _ => Pass) (fun _ => Pass) (fun _ => Pass).

(** A store in which a link has the code [healthz]. *)
Definition healthz_link : Link.t :=
  Link.mk "clx5" "healthz" "https://status.example.com" None None 0 true
    None 0%Z 0%Z.

Definition shadowed_db : Store := mkStore [healthz_link; docs_link] [].

Definition browser_get (p : string) : HttpRequest :=
  mkHttp GET p (visit EmptyString).

(** The store going down under a request for an existing link. *)
Definition outage : Env := mkEnv 1704110400000%Z (Some store_down) None.

(** The rows of a code, in table order. *)
Definition rows_of (code : string) (rows : list Link.t) : list Link.t :=
  List.filter (fun l => String.eqb (Link.shortCode l) code) rows.

(** * Properties *)

(** ** The outcome of [redirect], case by case *)

Lemma expired_spec t link :
  expired t link = true <->
  exists e, Link.expiresAt link = Some e /\ (e < t)%Z.
Proof.
  unfold expired. destruct (Link.expiresAt link) as [e|].
  - rewrite Z.ltb_lt. split.
    + intros H. exists e. auto.
    + intros (e' & He & Hlt). congruence.
  - split; [discriminate | intros (e & He & _); discriminate].
Qed.

Lemma unresolvable_spec t db code :
  Unresolvable t db code <->
  match find_row (links db) code with
  | None => True
  | Some link => Link.isActive link = false \/ expired t link = true
  end.
Proof.
  split.
  - intros [Hn | link Hf Ha | link e Hf He Hlt]; rewrite ?Hn, ?Hf; auto.
    right. apply expired_spec. eauto.
  - destruct (find_row (links db) code) as [link|] eqn:Hf.
    + intros [Ha | He].
      * eapply Inactive; eauto.
      * apply expired_spec in He as (e & He & Hlt). eapply Expired; eauto.
    + intros _. now apply NoSuchLink.
Qed.

Lemma redirect_live env db req link :
  find_fault env = None ->
  find_row (links db) (Req.shortCode req) = Some link ->
  Link.isActive link = true ->
  expired (now env) link = false ->
  redirect env db req =
    [Query (Req.shortCode req); Track (Link.id link) req;
     Respond (Redirect 302 (Link.originalUrl link))].
Proof.
  intros Hq Hf Ha He. unfold redirect, findUnique, redirect_resume.
  now rewrite Hq, Hf, Ha, He.
Qed.

Lemma redirect_unresolvable env db req :
  find_fault env = None ->
  Unresolvable (now env) db (Req.shortCode req) ->
  redirect env db req =
    [Query (Req.shortCode req); Respond (Send 404 "Not Found")].
Proof.
  intros Hq Hu. apply unresolvable_spec in Hu.
  unfold redirect, findUnique, redirect_resume. rewrite Hq.
  destruct (find_row (links db) (Req.shortCode req)) as [link|]; [|reflexivity].
  destruct Hu as [Ha | He].
  - now rewrite Ha.
  - rewrite He. now destruct (Link.isActive link).
Qed.

Lemma resolvable_live t db code :
  ~ Unresolvable t db code ->
  exists link, find_row (links db) code = Some link /\
               Link.isActive link = true /\ expired t link = false.
Proof.
  intros Hn. rewrite unresolvable_spec in Hn.
  destruct (find_row (links db) code) as [link|]; [|tauto].
  exists link. split; [reflexivity|].
  destruct (Link.isActive link), (expired t link); tauto.
Qed.

Lemma live_resolvable t db code link :
  find_row (links db) code = Some link ->
  Link.isActive link = true ->
  expired t link = false ->
  ~ Unresolvable t db code.
Proof.
  intros Hf Ha He Hu. apply unresolvable_spec in Hu. rewrite Hf in Hu.
  destruct Hu; congruence.
Qed.

Lemma redirect_thrown env db req e :
  find_fault env = Some e ->
  redirect env db req = [Query (Req.shortCode req); Next e].
Proof.
  intros Hq. unfold redirect, findUnique. now rewrite Hq.
Qed.

(** C1. With the store answering the lookup, [redirect] answers 404
    exactly when no link has the code, or the link is inactive, or its
    [expiresAt] is set and in the past; in every other case it answers
    with the 302 redirect to the stored URL. *)
Theorem resolve_not_found_iff env db req :
  find_fault env = None ->
  (map status_of (responses (redirect env db req)) = [404]
     <-> Unresolvable (now env) db (Req.shortCode req))
  /\ (~ Unresolvable (now env) db (Req.shortCode req) ->
      exists link,
        find_row (links db) (Req.shortCode req) = Some link /\
        responses (redirect env db req)
          = [Redirect 302 (Link.originalUrl link)]).
Proof.
  intros Hq. split; [split|].
  - intros H404.
    destruct (unresolvable_spec (now env) db (Req.shortCode req)) as [_ Hback].
    apply Hback. clear Hback.
    destruct (find_row (links db) (Req.shortCode req)) as [link|] eqn:Hf; [|exact I].
    destruct (Link.isActive link) eqn:Ha; [|now left].
    destruct (expired (now env) link) eqn:He; [now right|].
    rewrite (redirect_live env db req link Hq Hf Ha He) in H404. discriminate.
  - intros Hu. now rewrite (redirect_unresolvable env db req Hq Hu).
  - intros Hn. destruct (resolvable_live _ _ _ Hn) as (link & Hf & Ha & He).
    exists link. split; [exact Hf|].
    now rewrite (redirect_live env db req link Hq Hf Ha He).
Qed.

Lemma resolve_not_found_iff_witness :
  (map status_of (responses (redirect calm sample_db (visit "old001"))) = [404]
     <-> Unresolvable (now calm) sample_db "old001")
  /\ exists link,
       find_row (links sample_db) "docs01" = Some link /\
       responses (redirect calm sample_db (visit "docs01"))
         = [Redirect 302 (Link.originalUrl link)].
Proof.
  split.
  - exact (proj1 (resolve_not_found_iff calm sample_db (visit "old001") eq_refl)).
  - apply (proj2 (resolve_not_found_iff calm sample_db (visit "docs01") eq_refl)).
    apply (live_resolvable _ _ _ docs_link); reflexivity.
Defined.

(** C6. Whichever of the three reasons applies, and whatever the store,
    the clock and the request are, the answer is the same: status 404
    with the body [Not Found], and nothing else is done besides the
    lookup. *)
Theorem not_found_indistinguishable env1 db1 req1 env2 db2 req2 :
  find_fault env1 = None ->
  find_fault env2 = None ->
  Unresolvable (now env1) db1 (Req.shortCode req1) ->
  Unresolvable (now env2) db2 (Req.shortCode req2) ->
  responses (redirect env1 db1 req1) = responses (redirect env2 db2 req2)
  /\ responses (redirect env1 db1 req1) = [Send 404 "Not Found"]
  /\ track_calls (redirect env1 db1 req1) = track_calls (redirect env2 db2 req2).
Proof.
  intros Hq1 Hq2 Hu1 Hu2.
  rewrite (redirect_unresolvable _ _ _ Hq1 Hu1).
  rewrite (redirect_unresolvable _ _ _ Hq2 Hu2).
  repeat split.
Qed.

Lemma missing_unresolvable : Unresolvable (now calm) sample_db "nosuch".
Proof. now apply NoSuchLink. Qed.

Lemma inactive_unresolvable : Unresolvable (now calm) sample_db "gone01".
Proof. now apply (Inactive _ _ _ gone_link). Qed.

Lemma expired_unresolvable : Unresolvable (now calm) sample_db "old001".
Proof. now apply (Expired _ _ _ old_link 1000%Z). Qed.

Lemma not_found_indistinguishable_witness :
  responses (redirect calm sample_db (visit "nosuch"))
    = responses (redirect calm sample_db (visit "gone01"))
  /\ responses (redirect calm sample_db (visit "gone01"))
    = responses (redirect calm sample_db (visit "old001")).
Proof.
  split.
  - exact (proj1 (not_found_indistinguishable calm sample_db (visit "nosuch")
                    calm sample_db (visit "gone01") eq_refl eq_refl
                    missing_unresolvable inactive_unresolvable)).
  - exact (proj1 (not_found_indistinguishable calm sample_db (visit "gone01")
                    calm sample_db (visit "old001") eq_refl eq_refl
                    inactive_unresolvable expired_unresolvable)).
Defined.

(** C9. The expiry test is strict.  An active link whose [expiresAt] is
    the current instant, or later, is redirected; it is answered 404
    exactly when [expiresAt] is strictly before the current instant. *)
Theorem expiry_is_strict env db req link e :
  find_fault env = None ->
  find_row (links db) (Req.shortCode req) = Some link ->
  Link.isActive link = true ->
  Link.expiresAt link = Some e ->
  ((now env <= e)%Z ->
     responses (redirect env db req) = [Redirect 302 (Link.originalUrl link)])
  /\ (responses (redirect env db req) = [Send 404 "Not Found"]
        <-> (e < now env)%Z).
Proof.
  intros Hq Hf Ha He.
  assert (Hexp : expired (now env) link = (e <? now env)%Z)
    by (unfold expired; now rewrite He).
  split; [|split].
  - intros Hle.
    rewrite (redirect_live env db req link Hq Hf Ha); [reflexivity|].
    rewrite Hexp. now apply Z.ltb_ge.
  - intros H404. destruct (e <? now env)%Z eqn:Hlt; [now apply Z.ltb_lt|].
    rewrite (redirect_live env db req link Hq Hf Ha) in H404 by congruence.
    discriminate.
  - intros Hlt. rewrite redirect_unresolvable; [reflexivity|exact Hq|].
    eapply Expired; eauto.
Qed.

Lemma expiry_is_strict_witness :
  responses (redirect calm (mkStore [edge_link] []) (visit "edge01"))
    = [Redirect 302 "https://edge.example.com"]
  /\ (responses (redirect calm sample_db (visit "old001")) = [Send 404 "Not Found"]
        <-> (1000 < now calm)%Z).
Proof.
  split.
  - apply (proj1 (expiry_is_strict calm (mkStore [edge_link] []) (visit "edge01")
                    edge_link 1704110400000%Z eq_refl eq_refl eq_refl eq_refl)).
    simpl. lia.
  - exact (proj2 (expiry_is_strict calm sample_db (visit "old001")
                    old_link 1000%Z eq_refl eq_refl eq_refl eq_refl)).
Defined.

(** C10. [redirect] does not look at the format of the code.  For every
    string it issues the lookup with that very string as its first
    action, it answers 404 when the store has no such link, and no
    response of its own has status 400. *)
Theorem resolve_validates_nothing env db req :
  queries (redirect env db req) = [Req.shortCode req]
  /\ head (redirect env db req) = Some (Query (Req.shortCode req))
  /\ (find_fault env = None ->
      find_row (links db) (Req.shortCode req) = None ->
      responses (redirect env db req) = [Send 404 "Not Found"])
  /\ Forall (fun r => status_of r = 404 \/ status_of r = 302)
            (responses (redirect env db req)).
Proof.
  unfold redirect, findUnique, redirect_resume.
  destruct (find_fault env) as [err|].
  { repeat split; try discriminate. constructor. }
  destruct (find_row (links db) (Req.shortCode req)) as [link|].
  - destruct (Link.isActive link), (expired (now env) link); simpl;
      repeat split; try discriminate;
      apply Forall_cons; simpl; auto.
  - simpl. repeat split. apply Forall_cons; simpl; auto.
Qed.

Lemma resolve_validates_nothing_witness :
  responses (redirect calm sample_db (visit "bad_code!"))
    = [Send 404 "Not Found"].
Proof.
  exact (proj1 (proj2 (proj2
           (resolve_validates_nothing calm sample_db (visit "bad_code!"))))
           eq_refl eq_refl).
Defined.

(** ** Click tracking of a request served alone *)

Lemma find_row_map (f : Link.t -> Link.t) rows code :
  (forall l, Link.shortCode (f l) = Link.shortCode l) ->
  find_row (map f rows) code = option_map f (find_row rows code).
Proof.
  intros Hf. unfold find_row.
  induction rows as [|l rows IH]; [reflexivity|].
  simpl. rewrite Hf. destruct (String.eqb (Link.shortCode l) code); auto.
Qed.

Lemma find_row_increment linkId db code :
  find_row (links (increment_clicks linkId db)) code =
  option_map (fun l => if String.eqb (Link.id l) linkId then add_click l else l)
             (find_row (links db) code).
Proof.
  unfold increment_clicks. simpl. apply find_row_map.
  intros l. now destruct (String.eqb (Link.id l) linkId).
Qed.

Lemma links_record_click env linkId req db :
  links (fst (record_click env linkId req db)) = links db.
Proof. unfold record_click. now destruct (write_fault env). Qed.

Lemma serve_live env db req link :
  find_fault env = None ->
  find_row (links db) (Req.shortCode req) = Some link ->
  Link.isActive link = true ->
  expired (now env) link = false ->
  serve env db req =
    (fst (trackClick env (Link.id link) req db),
     [Query (Req.shortCode req); Track (Link.id link) req;
      Respond (Redirect 302 (Link.originalUrl link))]
     ++ settle (snd (trackClick env (Link.id link) req db))).
Proof.
  intros Hq Hf Ha He. unfold serve.
  rewrite (redirect_live env db req link Hq Hf Ha He). simpl.
  destruct (trackClick env (Link.id link) req db) as [db1 res]. simpl.
  now rewrite app_nil_r.
Qed.

Lemma serve_unresolvable env db req :
  find_fault env = None ->
  Unresolvable (now env) db (Req.shortCode req) ->
  serve env db req =
    (db, [Query (Req.shortCode req); Respond (Send 404 "Not Found")]).
Proof.
  intros Hq Hu. unfold serve.
  now rewrite (redirect_unresolvable env db req Hq Hu).
Qed.

(** C2. A request for a link that exists, is active and is not expired
    is answered with the 302 redirect to the stored [originalUrl], and
    once served the link's [clicks] is its former value plus 1, the
    rest of the link unchanged. *)
Theorem resolve_counts_one_click env db req link :
  find_fault env = None ->
  find_row (links db) (Req.shortCode req) = Some link ->
  Link.isActive link = true ->
  expired (now env) link = false ->
  responses (snd (serve env db req)) = [Redirect 302 (Link.originalUrl link)]
  /\ find_row (links (fst (serve env db req))) (Req.shortCode req)
       = Some (add_click link)
  /\ Link.clicks (add_click link) = (Link.clicks link + 1)%Z.
Proof.
  intros Hq Hf Ha He. rewrite (serve_live env db req link Hq Hf Ha He).
  simpl. split; [|split; [|reflexivity]].
  - now destruct (snd (trackClick env (Link.id link) req db)).
  - unfold trackClick. unfold find_row. rewrite links_record_click.
    fold (find_row (links (increment_clicks (Link.id link) db)) (Req.shortCode req)).
    rewrite find_row_increment, Hf. simpl. now rewrite String.eqb_refl.
Qed.

Lemma resolve_counts_one_click_witness :
  responses (snd (serve calm sample_db (visit "docs01")))
    = [Redirect 302 "https://www.example.com"]
  /\ find_row (links (fst (serve calm sample_db (visit "docs01")))) "docs01"
       = Some (add_click docs_link)
  /\ Link.clicks (add_click docs_link) = 6%Z.
Proof.
  exact (resolve_counts_one_click calm sample_db (visit "docs01") docs_link
           eq_refl eq_refl eq_refl eq_refl).
Defined.

(** C5. For a request that resolves, the effects up to and including the
    302 response are the same whether the ClickEvent write then succeeds
    or fails; the response precedes the settlement of the write; a
    failed write adds one logged error after it and nothing else: no
    error is forwarded and no second response is sent. *)
Theorem redirect_ignores_analytics_failure t wf db req link :
  find_row (links db) (Req.shortCode req) = Some link ->
  Link.isActive link = true ->
  expired t link = false ->
  let tr := snd (serve (mkEnv t None wf) db req) in
  tr = redirect (mkEnv t None None) db req
         ++ match wf with Some e => [LogError e] | None => [] end
  /\ responses tr = [Redirect 302 (Link.originalUrl link)]
  /\ forwarded tr = []
  /\ responses tr = responses (snd (serve (mkEnv t None None) db req)).
Proof.
  intros Hf Ha He tr. subst tr.
  rewrite (serve_live (mkEnv t None wf) db req link eq_refl Hf Ha He).
  rewrite (serve_live (mkEnv t None None) db req link eq_refl Hf Ha He).
  rewrite (redirect_live (mkEnv t None None) db req link eq_refl Hf Ha He).
  unfold trackClick, record_click. simpl.
  destruct wf as [e|]; simpl; repeat split.
Qed.

Lemma redirect_ignores_analytics_failure_witness :
  snd (serve lossy sample_db (visit "docs01"))
    = redirect calm sample_db (visit "docs01") ++ [LogError store_down]
  /\ responses (snd (serve lossy sample_db (visit "docs01")))
    = responses (snd (serve calm sample_db (visit "docs01"))).
Proof.
  pose proof (redirect_ignores_analytics_failure 1704110400000%Z
                (Some store_down) sample_db (visit "docs01") docs_link
                eq_refl eq_refl eq_refl) as H.
  split; [exact (proj1 H) | exact (proj2 (proj2 (proj2 H)))].
Defined.

(** C7. [trackClick] is called exactly once by a request that resolves,
    with the id of the link found and the request itself, and not at all
    by a request answered 404, which leaves the store as it was. *)
Theorem click_tracked_once env db req :
  find_fault env = None ->
  (~ Unresolvable (now env) db (Req.shortCode req) ->
     exists link,
       find_row (links db) (Req.shortCode req) = Some link /\
       responses (redirect env db req) = [Redirect 302 (Link.originalUrl link)] /\
       track_calls (redirect env db req) = [(Link.id link, req)])
  /\ (Unresolvable (now env) db (Req.shortCode req) ->
        responses (redirect env db req) = [Send 404 "Not Found"] /\
        track_calls (redirect env db req) = [] /\
        fst (serve env db req) = db).
Proof.
  intros Hq. split.
  - intros Hn. destruct (resolvable_live _ _ _ Hn) as (link & Hf & Ha & He).
    exists link. rewrite (redirect_live env db req link Hq Hf Ha He).
    repeat split. exact Hf.
  - intros Hu. rewrite (serve_unresolvable env db req Hq Hu).
    rewrite (redirect_unresolvable env db req Hq Hu). repeat split.
Qed.

Lemma click_tracked_once_witness :
  (exists link,
     find_row (links sample_db) "docs01" = Some link /\
     responses (redirect calm sample_db (visit "docs01"))
       = [Redirect 302 (Link.originalUrl link)] /\
     track_calls (redirect calm sample_db (visit "docs01"))
       = [(Link.id link, visit "docs01")])
  /\ track_calls (redirect calm sample_db (visit "gone01")) = [].
Proof.
  split.
  - apply (proj1 (click_tracked_once calm sample_db (visit "docs01") eq_refl)).
    apply (live_resolvable _ _ _ docs_link); reflexivity.
  - exact (proj1 (proj2 (proj2 (click_tracked_once calm sample_db
                                  (visit "gone01") eq_refl)
                          inactive_unresolvable))).
Defined.

(** ** Error responses *)

Lemma is_development_spec node_env :
  is_development node_env = true <-> node_env = Some "development".
Proof.
  unfold is_development. destruct node_env as [v|].
  - rewrite String.eqb_eq. split; congruence.
  - split; discriminate.
Qed.

Lemma errorHandler_response node_env err r :
  In r (responses (errorHandler node_env err)) ->
  error_shape r = true /\ has_stack r = is_development node_env.
Proof.
  unfold errorHandler. simpl. intros [<- | []].
  destruct (is_development node_env); split; reflexivity.
Qed.

(** C4, as the code has it.  Every response of the error-handling
    middleware, and so every error [redirect] forwards to it, and every
    response of the fallback handler for unmatched routes has a body of
    the shape [{success:false, message}], with a [stack] field exactly
    when [NODE_ENV] is [development]; the 404 that [redirect] sends
    itself is the plain text [Not Found]. *)
Theorem error_responses_shape :
  (forall node_env err r,
     In r (responses (errorHandler node_env err)) ->
     error_shape r = true /\
     (has_stack r = true <-> node_env = Some "development"))
  /\ (forall r,
        In r (responses notFoundHandler) ->
        error_shape r = true /\ has_stack r = false)
  /\ (forall node_env env db req r,
        In r (responses (get_shortCode node_env env db req)) ->
        r = Send 404 "Not Found"
        \/ (exists url, r = Redirect 302 url)
        \/ (error_shape r = true /\
            (has_stack r = true -> node_env = Some "development"))).
Proof.
  split; [|split].
  - intros node_env err r Hin.
    destruct (errorHandler_response node_env err r Hin) as [Hs Hk].
    split; [exact Hs|]. rewrite Hk. apply is_development_spec.
  - unfold notFoundHandler. simpl. intros r [<- | []]. split; reflexivity.
  - intros node_env env db req r. unfold get_shortCode.
    destruct (find_fault env) as [e|] eqn:Hq.
    + rewrite (redirect_thrown env db req e Hq). simpl. intros [<- | []].
      right; right. split; [reflexivity|].
      unfold has_stack. simpl. intros Hk. apply is_development_spec.
      now destruct (is_development node_env).
    + unfold redirect, findUnique, redirect_resume. rewrite Hq.
      destruct (find_row (links db) (Req.shortCode req)) as [link|].
      * destruct (Link.isActive link), (expired (now env) link); simpl;
          intros [<- | []]; eauto.
      * simpl. intros [<- | []]. now left.
Qed.

Lemma error_responses_shape_witness :
  error_shape (SendJson 500
     [("success", JBool false);
      ("message", JStr "Can't reach database server");
      ("stack", JStr "Error: Can't reach database server")]) = true.
Proof.
  refine (proj1 (proj1 error_responses_shape (Some "development") store_down _ _)).
  simpl. left. reflexivity.
Defined.

(** C4, as the spec states it, fails: the 404 of [redirect] for an
    unknown code is an error response whose body is plain text, not an
    object with [success] and [message]. *)
Lemma resolve_404_is_plain_text :
  ~ (forall node_env env db req r,
       In r (responses (get_shortCode node_env env db req)) ->
       400 <= status_of r ->
       error_shape r = true).
Proof.
  intros H.
  specialize (H None calm sample_db (visit "nosuch") (Send 404 "Not Found")).
  simpl in H. discriminate H; [now left | lia].
Qed.

(** ** Requests in flight *)

Lemma sum_list_with_insert (f : Thread -> nat) (l : list Thread) i t t' :
  l !! i = Some t ->
  sum_list_with f (<[i := t']> l) + f t = sum_list_with f l + f t'.
Proof.
  revert i. induction l as [|x l IH]; intros i Hi; [discriminate|].
  destruct i as [|i]; simpl in *.
  - injection Hi as ->. lia.
  - specialize (IH i Hi). lia.
Qed.

Lemma sum_list_with_finished (l : list Thread) :
  forallb finished l = true ->
  sum_list_with counted l = length l /\ sum_list_with ended l = length l.
Proof.
  induction l as [|x l IH]; simpl; [auto|].
  intros H. apply andb_prop in H as [Hx Hl].
  destruct (IH Hl) as [-> ->]. destruct x; try discriminate. auto.
Qed.

Lemma expired_same t l l0 :
  Link.expiresAt l = Link.expiresAt l0 -> expired t l = expired t l0.
Proof. unfold expired. now intros ->. Qed.

Lemma on_course_resume code l0 t found req :
  on_course code l0 (Resumed found req) ->
  expired t l0 = false ->
  exists l, Link.id l = Link.id l0 /\
    redirect_resume t found req
      = [Track (Link.id l) req; Respond (Redirect 302 (Link.originalUrl l))].
Proof.
  intros (l & -> & Hid & Ha & He) Hexp. exists l. split; [exact Hid|].
  unfold redirect_resume. rewrite Ha, (expired_same t l l0 He), Hexp.
  reflexivity.
Qed.

Lemma step_in_flight code l0 n i env s :
  fair_weather l0 (i, env) ->
  in_flight code l0 n s ->
  in_flight code l0 n (step i env s).
Proof.
  intros [Hq Hexp] (Hlen & Hall & l & Hf & Hid & Ha & He & Hc).
  simpl in Hq, Hexp. unfold step.
  destruct (pool s !! i) as [t|] eqn:Hi; [|repeat split; eauto 10].
  pose proof (proj1 (Forall_lookup _ _) Hall i t Hi) as Ht.
  destruct t as [req | found req | k req | k req | ].
  - (* the lookup *)
    simpl in Ht. unfold in_flight. simpl.
    rewrite length_insert. split; [exact Hlen|]. split.
    + apply Forall_insert; [exact Hall|]. simpl. exists l.
      unfold findUnique. rewrite Hq, Ht, Hf. auto.
    + exists l. repeat split; auto. rewrite Hc. f_equal. f_equal.
      pose proof (sum_list_with_insert counted (pool s) i (Arrived req)
        (Resumed (findUnique env (store s) (Req.shortCode req)) req) Hi) as E.
      simpl in E. lia.
  - (* the checks, the call of trackClick and the response *)
    destruct (on_course_resume code l0 (now env) found req Ht Hexp)
      as (l' & Hid' & Hres).
    rewrite Hres. unfold in_flight, after_resume. simpl.
    rewrite length_insert. split; [exact Hlen|]. split.
    + apply Forall_insert; [exact Hall|]. exact Hid'.
    + exists l. repeat split; auto. rewrite Hc. f_equal. f_equal.
      pose proof (sum_list_with_insert counted (pool s) i (Resumed found req)
        (Counting (Link.id l') req) Hi) as E.
      simpl in E. lia.
  - (* the increment *)
    simpl in Ht. subst k. unfold in_flight. simpl.
    rewrite length_insert. split; [exact Hlen|]. split.
    + apply Forall_insert; [exact Hall|]. reflexivity.
    + exists (add_click l).
      pose proof (find_row_increment (Link.id l0) (store s) code) as Hinc.
      unfold increment_clicks in Hinc. simpl in Hinc.
      rewrite Hinc, Hf. simpl. rewrite Hid, String.eqb_refl.
      repeat split; auto. rewrite Hc.
      pose proof (sum_list_with_insert counted (pool s) i
        (Counting (Link.id l0) req) (Recording (Link.id l0) req) Hi) as E.
      simpl in E. lia.
  - (* the ClickEvent write *)
    simpl in Ht. subst k.
    pose proof (links_record_click env (Link.id l0) req (store s)) as Hl.
    destruct (record_click env (Link.id l0) req (store s)) as [db' res].
    simpl in Hl. unfold in_flight. simpl.
    rewrite length_insert. split; [exact Hlen|]. split.
    + apply Forall_insert; [exact Hall|]. exact I.
    + exists l. rewrite Hl. repeat split; auto. rewrite Hc. f_equal. f_equal.
      pose proof (sum_list_with_insert counted (pool s) i
        (Recording (Link.id l0) req) Finished Hi) as E.
      simpl in E. lia.
  - repeat split; eauto 10.
Qed.

Lemma step_events code l0 n base i env s :
  fair_weather l0 (i, env) ->
  write_fault env = None ->
  in_flight code l0 n s ->
  length (analytics (store s)) = base + sum_list_with ended (pool s) ->
  length (analytics (store (step i env s)))
    = base + sum_list_with ended (pool (step i env s)).
Proof.
  intros [Hq Hexp] Hw (Hlen & Hall & _) Hev. simpl in Hq, Hexp.
  unfold step.
  destruct (pool s !! i) as [t|] eqn:Hi; [|exact Hev].
  pose proof (proj1 (Forall_lookup _ _) Hall i t Hi) as Ht.
  destruct t as [req | found req | k req | k req | ]; simpl.
  - pose proof (sum_list_with_insert ended (pool s) i (Arrived req)
      (Resumed (findUnique env (store s) (Req.shortCode req)) req) Hi) as E.
    simpl in E. lia.
  - destruct (on_course_resume code l0 (now env) found req Ht Hexp)
      as (l' & _ & Hres).
    rewrite Hres. unfold after_resume. simpl.
    pose proof (sum_list_with_insert ended (pool s) i (Resumed found req)
      (Counting (Link.id l') req) Hi) as E.
    simpl in E. lia.
  - pose proof (sum_list_with_insert ended (pool s) i (Counting k req)
      (Recording k req) Hi) as E.
    simpl in E. lia.
  - unfold record_click. rewrite Hw. simpl. rewrite length_app. simpl.
    pose proof (sum_list_with_insert ended (pool s) i (Recording k req)
      Finished Hi) as E.
    simpl in E. lia.
  - exact Hev.
Qed.

Lemma run_in_flight code l0 n sched :
  Forall (fair_weather l0) sched ->
  forall s, in_flight code l0 n s -> in_flight code l0 n (run sched s).
Proof.
  unfold run. induction 1 as [|[i env] sched Hie _ IH]; intros s Hs; [exact Hs|].
  simpl. apply IH. now apply step_in_flight.
Qed.

Lemma run_events code l0 n base sched :
  Forall (fair_weather l0) sched ->
  Forall (fun ie => write_fault (snd ie) = None) sched ->
  forall s,
    in_flight code l0 n s ->
    length (analytics (store s)) = base + sum_list_with ended (pool s) ->
    length (analytics (store (run sched s)))
      = base + sum_list_with ended (pool (run sched s)).
Proof.
  unfold run. induction 1 as [|[i env] sched Hie _ IH]; intros Hw s Hs Hev;
    [exact Hev|].
  apply Forall_cons in Hw as [Hw1 Hw]. simpl in *.
  apply (IH Hw).
  - now apply step_in_flight.
  - now apply (step_events code l0 n).
Qed.

Lemma arrive_in_flight db code l0 reqs :
  find_row (links db) code = Some l0 ->
  Link.isActive l0 = true ->
  Forall (fun r => Req.shortCode r = code) reqs ->
  in_flight code l0 (length reqs) (arrive db reqs)
  /\ sum_list_with ended (pool (arrive db reqs)) = 0.
Proof.
  intros Hf Ha Hreqs. unfold in_flight, arrive. simpl.
  assert (Hsum : sum_list_with counted (map Arrived reqs) = 0
                 /\ sum_list_with ended (map Arrived reqs) = 0).
  { clear. induction reqs as [|r reqs [IH1 IH2]]; simpl; auto. }
  destruct Hsum as [Hc He]. rewrite Hc.
  repeat split; [now rewrite length_map | | | exact He].
  - induction Hreqs; simpl; constructor; auto.
  - exists l0. repeat split; auto. simpl. lia.
Qed.

(** Every request can be run to its end: served one after the other,
    four steps each, all of them finish. *)
Lemma step_length i env s : length (pool (step i env s)) = length (pool s).
Proof.
  unfold step. destruct (pool s !! i) as [[req|found req|k req|k req|]|];
    simpl; rewrite ?length_insert; try reflexivity.
  destruct (record_click env k req (store s)). simpl. now rewrite length_insert.
Qed.

Lemma step_other i j env s :
  i <> j -> pool (step i env s) !! j = pool s !! j.
Proof.
  intros Hne. unfold step.
  destruct (pool s !! i) as [[req|found req|k req|k req|]|];
    simpl; rewrite ?list_lookup_insert_ne by exact Hne; try reflexivity.
  destruct (record_click env k req (store s)). simpl.
  now rewrite list_lookup_insert_ne.
Qed.

Lemma step_progress i env s t :
  pool s !! i = Some t ->
  exists t', pool (step i env s) !! i = Some t'
             /\ remaining t' <= pred (remaining t).
Proof.
  intros Ht. pose proof (lookup_lt_Some _ _ _ Ht) as Hlt.
  unfold step. rewrite Ht.
  destruct t as [req|found req|k req|k req|]; simpl.
  - eexists. rewrite list_lookup_insert_eq by exact Hlt. split; [reflexivity|].
    simpl. lia.
  - eexists. rewrite list_lookup_insert_eq by exact Hlt. split; [reflexivity|].
    unfold after_resume. destruct (track_calls _) as [|[k r] rest]; simpl; lia.
  - eexists. rewrite list_lookup_insert_eq by exact Hlt. split; [reflexivity|].
    simpl. lia.
  - destruct (record_click env k req (store s)). simpl.
    eexists. rewrite list_lookup_insert_eq by exact Hlt. split; [reflexivity|].
    simpl. lia.
  - exists Finished. split; [exact Ht | simpl; lia].
Qed.

Lemma steps_progress i env k :
  forall s t,
    pool s !! i = Some t ->
    exists t', pool (run (repeat (i, env) k) s) !! i = Some t'
               /\ remaining t' <= remaining t - k.
Proof.
  unfold run. induction k as [|k IH]; intros s t Ht.
  - exists t. split; [exact Ht | lia].
  - simpl. destruct (step_progress i env s t Ht) as (t1 & H1 & Hr1).
    destruct (IH _ t1 H1) as (t' & H' & Hr'). exists t'.
    split; [exact H' | lia].
Qed.

Lemma four_steps_finish i env s :
  i < length (pool s) ->
  pool (run (repeat (i, env) 4) s) !! i = Some Finished.
Proof.
  intros Hi. destruct (lookup_lt_is_Some_2 _ _ Hi) as [t Ht].
  destruct (steps_progress i env 4 s t Ht) as (t' & H' & Hr).
  rewrite H'. f_equal.
  destruct t; destruct t'; simpl in Hr; try reflexivity; lia.
Qed.

Lemma run_app sched1 sched2 s :
  run (sched1 ++ sched2) s = run sched2 (run sched1 s).
Proof. unfold run. apply fold_left_app. Qed.

Lemma run_length sched s : length (pool (run sched s)) = length (pool s).
Proof.
  unfold run. revert s. induction sched as [|[i env] sched IH]; intros s;
    [reflexivity|].
  simpl. rewrite IH. apply step_length.
Qed.

Lemma run_other i env k j s :
  i <> j -> pool (run (repeat (i, env) k) s) !! j = pool s !! j.
Proof.
  intros Hne. unfold run. revert s.
  induction k as [|k IH]; intros s; [reflexivity|].
  simpl. rewrite IH. now apply step_other.
Qed.

Lemma one_by_one_upto env k s :
  k <= length (pool s) ->
  forall j, j < k -> pool (run (one_by_one env k) s) !! j = Some Finished.
Proof.
  unfold one_by_one. induction k as [|k IH]; intros Hk j Hj; [lia|].
  rewrite seq_S, flat_map_app, run_app.
  change (flat_map (fun i => repeat (i, env) 4) [0 + k])
    with (repeat (k, env) 4).
  destruct (Nat.eq_dec j k) as [->|Hne].
  - apply four_steps_finish. rewrite run_length. lia.
  - rewrite run_other by congruence. apply IH; lia.
Qed.

Lemma one_by_one_completes env db reqs :
  forallb finished (pool (run (one_by_one env (length reqs)) (arrive db reqs)))
    = true.
Proof.
  set (s := run (one_by_one env (length reqs)) (arrive db reqs)).
  assert (Hlen : length (pool s) = length reqs).
  { subst s. rewrite run_length. unfold arrive. simpl. apply length_map. }
  assert (Hall : forall j, j < length (pool s) -> pool s !! j = Some Finished).
  { intros j Hj. subst s. apply one_by_one_upto.
    - unfold arrive. simpl. now rewrite length_map.
    - lia. }
  clearbody s. clear Hlen.
  induction (pool s) as [|t p IH]; [reflexivity|].
  simpl. pose proof (Hall 0 ltac:(simpl; lia)) as H0. simpl in H0.
  injection H0 as ->. simpl. apply IH.
  intros j Hj. apply (Hall (S j)). simpl. lia.
Qed.

(** A request served alone is the one-request pool run to its end. *)
Lemma serve_is_run env db req :
  let s := run (one_by_one env 1) (arrive db [req]) in
  store s = fst (serve env db req)
  /\ effects_of 0 (trace s) = snd (serve env db req)
  /\ pool s = [Finished].
Proof.
  unfold one_by_one, run, arrive, serve, redirect, step. simpl.
  destruct (findUnique env db (Req.shortCode req)) as [[link|]|e];
    simpl; auto.
  destruct (Link.isActive link); simpl; auto.
  destruct (expired (now env) link); simpl; auto.
  unfold trackClick.
  destruct (record_click env (Link.id link) req
              (increment_clicks (Link.id link) db)) as [db' res].
  simpl. destruct res; simpl; auto.
Qed.

(** C8. Take any number of requests for the same code, whose link is
    active and not expired, and any interleaving of their steps that
    brings every one of them to its end, the lookups answering: the
    link's [clicks] has grown by exactly the number of requests, and,
    when no ClickEvent write failed, as many ClickEvents are recorded. *)
Theorem concurrent_resolves_all_counted db code l0 reqs sched :
  find_row (links db) code = Some l0 ->
  Link.isActive l0 = true ->
  Forall (fun r => Req.shortCode r = code) reqs ->
  Forall (fair_weather l0) sched ->
  forallb finished (pool (run sched (arrive db reqs))) = true ->
  (exists l,
     find_row (links (store (run sched (arrive db reqs)))) code = Some l /\
     Link.clicks l = (Link.clicks l0 + Z.of_nat (length reqs))%Z)
  /\ (Forall (fun ie => write_fault (snd ie) = None) sched ->
      length (analytics (store (run sched (arrive db reqs))))
        = length (analytics db) + length reqs).
Proof.
  intros Hf Ha Hreqs Hsched Hdone.
  destruct (arrive_in_flight db code l0 reqs Hf Ha Hreqs) as [H0 He0].
  pose proof (run_in_flight code l0 _ sched Hsched _ H0) as Hinv.
  destruct (sum_list_with_finished _ Hdone) as [Hcount Hend].
  pose proof Hinv as (Hlen & _ & l & Hl & _ & _ & _ & Hc).
  split.
  - exists l. split; [exact Hl|]. rewrite Hc, Hcount, Hlen. reflexivity.
  - intros Hw.
    rewrite (run_events code l0 _ (length (analytics db)) sched Hsched Hw _ H0).
    + rewrite Hend, Hlen. reflexivity.
    + rewrite He0. simpl. lia.
Qed.

(** Two requests for the same code, their steps interleaved. *)
Lemma concurrent_resolves_all_counted_witness :
  let sched := [(0, calm); (1, calm); (1, calm); (0, calm);
                (1, calm); (0, calm); (0, calm); (1, calm)] in
  let s := run sched (arrive sample_db [visit "docs01"; visit "docs01"]) in
  (exists l, find_row (links (store s)) "docs01" = Some l /\
             Link.clicks l = 7%Z)
  /\ length (analytics (store s)) = 2.
Proof.
  intros sched s.
  assert (Hfair : Forall (fair_weather docs_link) sched)
    by (repeat constructor).
  assert (Hw : Forall (fun ie => write_fault (snd ie) = None) sched)
    by (repeat constructor).
  destruct (concurrent_resolves_all_counted sample_db "docs01" docs_link
              [visit "docs01"; visit "docs01"] sched
              eq_refl eq_refl ltac:(repeat constructor) Hfair eq_refl)
    as [Hc He].
  split; [exact Hc | exact (He Hw)].
Defined.

(** * Further properties *)

(** ** The redirect controller on its own *)

Lemma redirect_shape env db req :
  redirect env db req = [Query (Req.shortCode req); Respond (Send 404 "Not Found")]
  \/ (exists e, find_fault env = Some e /\
        redirect env db req = [Query (Req.shortCode req); Next e])
  \/ (exists link,
        find_fault env = None /\
        find_row (links db) (Req.shortCode req) = Some link /\
        Link.isActive link = true /\ expired (now env) link = false /\
        redirect env db req =
          [Query (Req.shortCode req); Track (Link.id link) req;
           Respond (Redirect 302 (Link.originalUrl link))]).
Proof.
  unfold redirect, findUnique, redirect_resume.
  destruct (find_fault env) as [e|]; [right; left; eauto|].
  destruct (find_row (links db) (Req.shortCode req)) as [link|] eqn:Hf;
    [|now left].
  destruct (Link.isActive link) eqn:Ha; [|now left].
  destruct (expired (now env) link) eqn:He; [now left|].
  right; right. exists link. auto.
Qed.

(** X1. Whatever the store, the clock and the request are, [redirect]
    settles the request exactly once: it either sends one response or
    forwards one error, never both and never neither; through the
    application, where the error middleware answers a forwarded error,
    the client gets exactly one response. *)
Theorem redirect_settles_once node_env env db req :
  length (responses (redirect env db req))
    + length (forwarded (redirect env db req)) = 1
  /\ length (responses (get_shortCode node_env env db req)) = 1.
Proof.
  unfold get_shortCode.
  destruct (redirect_shape env db req)
    as [-> | [(e & _ & ->) | (link & _ & _ & _ & _ & ->)]];
    split; reflexivity.
Qed.

(** X2. The answer depends on the request through its short code only:
    two requests for the same code, whatever their IP, user agent and
    referer, get the same responses, forward the same errors, issue the
    same lookup and have the same link tracked. *)
Theorem redirect_ignores_metadata env db r1 r2 :
  Req.shortCode r1 = Req.shortCode r2 ->
  responses (redirect env db r1) = responses (redirect env db r2)
  /\ forwarded (redirect env db r1) = forwarded (redirect env db r2)
  /\ queries (redirect env db r1) = queries (redirect env db r2)
  /\ map fst (track_calls (redirect env db r1))
       = map fst (track_calls (redirect env db r2)).
Proof.
  intros Hc. unfold redirect, findUnique, redirect_resume. rewrite Hc.
  destruct (find_fault env) as [e|]; [repeat split|].
  destruct (find_row (links db) (Req.shortCode r2)) as [link|]; [|repeat split].
  destruct (Link.isActive link), (expired (now env) link); repeat split.
Qed.

Lemma redirect_ignores_metadata_witness :
  responses (redirect calm sample_db (visit "docs01"))
    = responses (redirect calm sample_db
        (Req.mk "docs01" None (Some "curl/8.0") (Some "https://t.co") None None None)).
Proof.
  exact (proj1 (redirect_ignores_metadata calm sample_db (visit "docs01")
           (Req.mk "docs01" None (Some "curl/8.0") (Some "https://t.co")
              None None None) eq_refl)).
Defined.

Lemma find_row_rows_of rows code :
  find_row rows code = head (rows_of code rows).
Proof.
  unfold find_row, rows_of. induction rows as [|l rows IH]; [reflexivity|].
  simpl. destruct (String.eqb (Link.shortCode l) code); auto.
Qed.

(** X3. The answer for a code depends on the store through the rows of
    that code only: two stores with the same rows of the code, whatever
    their other links and their recorded clicks, give the same effects. *)
Theorem redirect_frame env db db' req :
  rows_of (Req.shortCode req) (links db) = rows_of (Req.shortCode req) (links db') ->
  redirect env db req = redirect env db' req.
Proof.
  intros Hrows. unfold redirect, findUnique.
  now rewrite !find_row_rows_of, Hrows.
Qed.

Lemma redirect_frame_witness :
  redirect calm sample_db (visit "docs01")
    = redirect calm (mkStore [gone_link; docs_link; edge_link]
                       [click_event 0%Z sample_db "clx1" (visit "docs01")])
        (visit "docs01").
Proof.
  exact (redirect_frame calm sample_db
           (mkStore [gone_link; docs_link; edge_link]
              [click_event 0%Z sample_db "clx1" (visit "docs01")])
           (visit "docs01") eq_refl).
Defined.

(** X4. Time only takes links away.  On an unchanged store, a code
    answered 404 at one instant is answered 404 at every later instant,
    and a code redirected at one instant was redirected, to the same
    URL, at every earlier one. *)
Theorem expiry_is_monotone t t' ff wf wf' db req :
  (t <= t')%Z ->
  (responses (redirect (mkEnv t ff wf) db req) = [Send 404 "Not Found"] ->
   responses (redirect (mkEnv t' ff wf') db req) = [Send 404 "Not Found"])
  /\ (forall url,
        responses (redirect (mkEnv t' ff wf') db req) = [Redirect 302 url] ->
        responses (redirect (mkEnv t ff wf) db req) = [Redirect 302 url]).
Proof.
  intros Hle. unfold redirect, findUnique, redirect_resume. simpl.
  destruct ff as [e|]; [split; [discriminate | intros url; discriminate]|].
  destruct (find_row (links db) (Req.shortCode req)) as [link|];
    [|split; [auto | intros url; discriminate]].
  destruct (Link.isActive link); simpl;
    [|split; [auto | intros url; discriminate]].
  unfold expired. destruct (Link.expiresAt link) as [e|]; [|split; auto].
  destruct (Z.ltb_spec e t), (Z.ltb_spec e t'); simpl; try lia;
    split; auto; try discriminate; intros url; discriminate.
Qed.

Lemma expiry_is_monotone_witness :
  responses (redirect (mkEnv 2000%Z None None) sample_db (visit "old001"))
    = [Send 404 "Not Found"]
  /\ responses (redirect (mkEnv 0%Z None None) sample_db (visit "docs01"))
    = [Redirect 302 "https://www.example.com"].
Proof.
  split.
  - refine (proj1 (expiry_is_monotone 1001%Z 2000%Z None None None sample_db
                     (visit "old001") _) eq_refl). lia.
  - refine (proj2 (expiry_is_monotone 0%Z 1704110400000%Z None None None
                     sample_db (visit "docs01") _) _ eq_refl). lia.
Defined.

(** X5. [redirect] never sends a client anywhere but to the stored URL
    of a link of the store that has the requested code, is active and
    has not expired, and it does so with status 302. *)
Theorem redirect_target_is_stored env db req st url :
  In (Respond (Redirect st url)) (redirect env db req) ->
  st = 302 /\
  exists link,
    In link (links db) /\
    Link.shortCode link = Req.shortCode req /\
    Link.originalUrl link = url /\
    Link.isActive link = true /\
    expired (now env) link = false.
Proof.
  intros Hin.
  destruct (redirect_shape env db req)
    as [E | [(e & _ & E) | (link & _ & Hf & Ha & He & E)]];
    rewrite E in Hin; simpl in Hin.
  - destruct Hin as [H | [H | []]]; discriminate.
  - destruct Hin as [H | [H | []]]; discriminate.
  - destruct Hin as [H | [H | [H | []]]]; try discriminate.
    injection H as <- <-. split; [reflexivity|]. exists link.
    apply find_some in Hf as [Hin Hcode]. apply String.eqb_eq in Hcode.
    auto.
Qed.

Lemma redirect_target_is_stored_witness :
  exists link,
    In link (links sample_db) /\
    Link.shortCode link = "docs01" /\
    Link.originalUrl link = "https://www.example.com" /\
    Link.isActive link = true /\
    expired (now calm) link = false.
Proof.
  refine (proj2 (redirect_target_is_stored calm sample_db (visit "docs01")
                   302 "https://www.example.com" _)).
  simpl. right. right. left. reflexivity.
Defined.

(** X6. When the store fails the lookup, the client gets one JSON error
    response carrying the error's status, or 500 when it has none, and
    its message; no click is tracked and the store is left as it was,
    whether or not a link of that code exists. *)
Theorem lookup_failure_is_internal_error node_env env db req e :
  find_fault env = Some e ->
  (exists obj,
     responses (get_shortCode node_env env db req)
       = [SendJson (status_or_500 e) obj] /\
     field "success" obj = Some (JBool false) /\
     field "message" obj = Some (JStr (message_or_default e)))
  /\ track_calls (get_shortCode node_env env db req) = []
  /\ fst (serve env db req) = db.
Proof.
  intros Hq. unfold get_shortCode, serve.
  rewrite (redirect_thrown env db req e Hq). simpl.
  split; [|split; reflexivity].
  eexists. split; [reflexivity|]. split; reflexivity.
Qed.

Lemma lookup_failure_is_internal_error_witness :
  map status_of (responses (get_shortCode None outage sample_db (visit "docs01")))
    = [500]
  /\ fst (serve outage sample_db (visit "docs01")) = sample_db.
Proof.
  pose proof (lookup_failure_is_internal_error None outage sample_db
                (visit "docs01") store_down eq_refl) as (Hr & _ & Hs).
  split; [|exact Hs].
  destruct Hr as (obj & -> & _). reflexivity.
Defined.

(** ** The error-handling middleware and the start-up log *)

(** X7. Outside development the response to an error does not depend on
    its stack: two errors with the same status and message get the same
    response, whatever their stacks, as soon as [NODE_ENV] is not
    exactly [development]. *)
Theorem stack_stays_inside node_env e1 e2 :
  node_env <> Some "development" ->
  err_status e1 = err_status e2 ->
  err_message e1 = err_message e2 ->
  responses (errorHandler node_env e1) = responses (errorHandler node_env e2).
Proof.
  intros Hdev Hs Hm.
  assert (Hd : is_development node_env = false).
  { destruct (is_development node_env) eqn:E; [|reflexivity].
    apply is_development_spec in E. contradiction. }
  unfold errorHandler, status_or_500, message_or_default. simpl.
  now rewrite Hd, Hs, Hm.
Qed.

Lemma stack_stays_inside_witness :
  responses (errorHandler (Some "production") store_down)
    = responses (errorHandler (Some "production")
        (mkError None "Can't reach database server"
           "Error: Can't reach database server at db.internal:5432")).
Proof.
  apply (stack_stays_inside (Some "production") store_down
           (mkError None "Can't reach database server"
              "Error: Can't reach database server at db.internal:5432"));
    [discriminate | reflexivity | reflexivity].
Defined.

(** X9. The start-up log and the error middleware do not read
    [NODE_ENV] alike.  With [NODE_ENV] unset or empty the log names the
    environment [development] while the middleware withholds the stack;
    in every other case the two agree. *)
Theorem environment_label_mismatch node_env :
  (environment_label node_env = "development"
   /\ is_development node_env = false)
  <-> (node_env = None \/ node_env = Some EmptyString).
Proof.
  split.
  - intros [Hl Hd]. destruct node_env as [v|]; [|now left].
    destruct v as [|c v]; [now right|].
    simpl in Hl. rewrite Hl in Hd. vm_compute in Hd. discriminate Hd.
  - intros [-> | ->]; split; reflexivity.
Qed.

(** ** The application: handlers in their order of registration *)

Lemma responses_app tr1 tr2 :
  responses (tr1 ++ tr2) = responses tr1 ++ responses tr2.
Proof. unfold responses. apply omap_app. Qed.

Lemma responses_errorHandlers node_env es :
  length (responses (flat_map (errorHandler node_env) es)) = length es.
Proof.
  induction es as [|e es IH]; [reflexivity|].
  simpl. f_equal. exact IH.
Qed.

Lemma dispatch_once node_env ls :
  Forall (fun l => forall tr, l = Answer tr ->
            length (responses tr) + length (forwarded tr) = 1) ls ->
  length (responses (dispatch node_env ls)) = 1.
Proof.
  induction 1 as [|l ls Hl _ IH]; [reflexivity|].
  destruct l as [|tr|e]; simpl.
  - exact IH.
  - rewrite responses_app, length_app, responses_errorHandlers. now apply Hl.
  - reflexivity.
Qed.

(** X10. The health checks come first.  A GET whose path matches
    [/health] or [/healthz] is answered [{ok:true, version:'1.0'}] with
    status 200 and no lookup in the store, also when the path matches
    [/:shortCode] and a link of that code exists: such a link is out of
    reach of the redirect. *)
Theorem health_shadows_short_codes w node_env env db r p :
  parsers w r = Pass ->
  verb r = GET ->
  p = "/health" \/ p = "/healthz" ->
  matches w p (pathname r) = true ->
  app w node_env env db r = healthHandler
  /\ responses (app w node_env env db r)
       = [SendJson 200 [("ok", JBool true); ("version", JStr "1.0")]]
  /\ queries (app w node_env env db r) = []
  /\ track_calls (app w node_env env db r) = [].
Proof.
  intros Hp Hv Hor Hm.
  assert (E : app w node_env env db r = healthHandler).
  { unfold app, layers, health_layer, is_get. rewrite Hp, Hv. simpl.
    destruct Hor as [-> | ->].
    - now rewrite Hm.
    - rewrite Hm. now destruct (matches w "/health" (pathname r)). }
  rewrite E. repeat split.
Qed.

Lemma health_shadows_short_codes_witness :
  responses (redirect calm shadowed_db (visit "healthz"))
    = [Redirect 302 "https://status.example.com"]
  /\ app plain None calm shadowed_db (browser_get "/healthz") = healthHandler.
Proof.
  split; [reflexivity|].
  refine (proj1 (health_shadows_short_codes plain None calm shadowed_db
                   (browser_get "/healthz") "/healthz" eq_refl eq_refl _ eq_refl)).
  right. reflexivity.
Defined.



(** X12. A request that the parsers registered first refuse is answered
    by the error middleware, with the status of the parsers' error, and
    reaches no handler: no lookup is made and no click is tracked, even
    for a GET of an existing short code. *)
Theorem refused_body_stops_everything w node_env env db r e :
  parsers w r = Fail e ->
  app w node_env env db r = errorHandler node_env e
  /\ map status_of (responses (app w node_env env db r)) = [status_or_500 e]
  /\ queries (app w node_env env db r) = []
  /\ track_calls (app w node_env env db r) = [].
Proof.
  intros Hp.
  assert (E : app w node_env env db r = errorHandler node_env e)
    by (unfold app, layers; now rewrite Hp).
  rewrite E. repeat split.
Qed.

Lemma refused_body_stops_everything_witness :
  map status_of (responses (app picky None calm sample_db (browser_get "/docs01")))
    = [400]
  /\ queries (app picky None calm sample_db (browser_get "/docs01")) = [].
Proof.
  pose proof (refused_body_stops_everything picky None calm sample_db
                (browser_get "/docs01") bad_json eq_refl) as (_ & Hs & Hq & _).
  split; [exact Hs | exact Hq].
Defined.

(** X13. Every request gets exactly one response, provided the parsers
    and the three mounted routers, when they take a request, either
    send one response or forward one error. *)
Theorem app_answers_once w node_env env db r :
  answers_once (parsers w) ->
  answers_once (authRoutes w) ->
  answers_once (linkRoutes w) ->
  answers_once (analyticsHandlers w) ->
  length (responses (app w node_env env db r)) = 1.
Proof.
  intros Hp Ha Hl Hn. unfold app. apply dispatch_once. unfold layers.
  assert (Hm : forall prefix h, answers_once h ->
            forall tr, mounted w prefix h r = Answer tr ->
              length (responses tr) + length (forwarded tr) = 1).
  { intros prefix h Hh tr. unfold mounted.
    destruct (under w prefix (pathname r)); [apply Hh | discriminate]. }
  assert (Hh : forall p tr, health_layer w p r = Answer tr ->
            length (responses tr) + length (forwarded tr) = 1).
  { intros p tr. unfold health_layer.
    destruct (is_get r && matches w p (pathname r)); [|discriminate].
    intros H. injection H as <-. reflexivity. }
  apply List.Forall_cons; [exact (Hp r)|].
  apply List.Forall_cons; [apply Hh|].
  apply List.Forall_cons; [apply Hh|].
  apply List.Forall_cons; [apply Hm, Ha|].
  apply List.Forall_cons; [apply Hm, Hl|].
  apply List.Forall_cons; [apply Hm, Hn|].
  apply List.Forall_cons; [|apply List.Forall_nil].
  intros tr. unfold redirect_layer. destruct (is_get r); [|discriminate].
    destruct (shortCode_of w (pathname r)) as [|code|e]; try discriminate.
  intros H. injection H as <-.
  destruct (redirect_shape env db (with_shortCode code (meta r)))
    as [-> | [(e & _ & ->) | (link & _ & _ & _ & _ & ->)]]; reflexivity.
Qed.

Lemma pass_answers_once : answers_once (fun _ => Pass).
Proof. intros r tr H. discriminate H. Qed.

Lemma app_answers_once_witness :
  length (responses (app plain None outage sample_db (browser_get "/docs01"))) = 1.
Proof.
  exact (app_answers_once plain None outage sample_db (browser_get "/docs01")
           pass_answers_once pass_answers_once pass_answers_once
           pass_answers_once).
Defined.

Lemma environment_label_mismatch_witness :
  environment_label None = "development" /\ is_development None = false.
Proof.
  apply (proj2 (environment_label_mismatch None)). left. reflexivity.
Defined.
